(** * parallel-async.ipynb: three ways of fetching a fixed list of URLs

    The notebook has three code cells, [Serial], [Parallel] and [Async].
    Each cell issues one HTTP GET per entry of its [URLS] list and prints
    one line per entry, either [<url> page is <N> bytes] or
    [<url> generated an exception: <description>].

    The cells are embedded as functions over
    - a [network], which says how each GET ends (a complete response, or a
      transport failure such as an unresolved name or an expired timeout),
    - the console, a list of printed lines threaded through an
      exception-and-output monad [IO],
    - and, for the two concurrent cells, a schedule that fixes the order
      in which the units of work finish.

    The HTTP clients ([requests], [urllib.request], [aiohttp]) and the
    runtime ([concurrent.futures], [asyncio]) are not part of the notebook;
    the section [Clients] and the functions [as_completed] and [gather]
    record the behaviour the cells rely on. *)

From Stdlib Require Import ZArith Ascii String.
From stdpp Require Import base list gmap strings pretty.

Local Open Scope Z_scope.

(** ** Python values *)

Abbreviation bytes := (list Byte.byte).

(** How a GET can fail below HTTP. *)
Inductive transport_failure :=
| NameResolutionFailure
| ConnectionRefused
| TimeoutExpired.

(** The exceptions the cells can see. [RequestException] is raised by
    [requests], [URLError] and [HTTPError] by [urllib.request],
    [ClientError] by [aiohttp] (its timeout comes from [asyncio]), and
    [KeyError] by a dictionary subscript. All are subclasses of Python's
    [Exception]. *)
Inductive Exception :=
| RequestException (why : transport_failure) (message : string)
| URLError (why : transport_failure) (reason : string)
| HTTPError (code : Z) (msg : string)
| ClientError (why : transport_failure) (message : string)
| KeyError (key : nat).

(** [str(exc)], the text that [{exc}] and [%s] put in the line. *)
Definition str (exc : Exception) : string :=
  match exc with
  | RequestException _ message => message
  | URLError _ reason => "<urlopen error " +:+ reason +:+ ">"
  | HTTPError code msg => "HTTP Error " +:+ pretty code +:+ ": " +:+ msg
  | ClientError _ message => message
  | KeyError key => pretty key
  end.

(** A call either returns a value or raises. *)
Inductive result (A : Type) :=
| Returned (a : A)
| Raised (exc : Exception).
Arguments Returned {A} a.
Arguments Raised {A} exc.

#[global] Instance result_ret : MRet result := λ A a, Returned a.
#[global] Instance result_bind : MBind result := λ A B f m,
  match m with
  | Returned a => f a
  | Raised exc => Raised exc
  end.

#[global] Instance result_fmap : FMap result := λ A B f m,
  match m with
  | Returned a => Returned (f a)
  | Raised exc => Raised exc
  end.

(** Code that also prints: the console is the list of lines written so
    far, oldest first. *)
Definition IO (A : Type) : Type := list string → result A * list string.

#[global] Instance IO_ret : MRet IO := λ A a out, (Returned a, out).
#[global] Instance IO_bind : MBind IO := λ A B f m out,
  match m out with
  | (Returned a, out') => f a out'
  | (Raised exc, out') => (Raised exc, out')
  end.

(** A call that does not print. *)
Definition call {A} (r : result A) : IO A := λ out, (r, out).

Definition print (line : string) : IO unit := λ out, (Returned tt, out ++ [line]).

(** [try: body  except Exception as exc: handler exc] *)
Definition try_except {A} (body : IO A) (handler : Exception → IO A) : IO A :=
  λ out,
    match body out with
    | (Returned a, out') => (Returned a, out')
    | (Raised exc, out') => handler exc out'
    end.

(** [try: x = body  except Exception as exc: handler exc  else: orelse x];
    an exception raised by [orelse] is not handled here. *)
Definition try_except_else {A B} (body : IO A) (handler : Exception → IO B)
    (orelse : A → IO B) : IO B :=
  λ out,
    match body out with
    | (Returned a, out') => orelse a out'
    | (Raised exc, out') => handler exc out'
    end.

(** [for x in xs: body x]; a raise leaves the loop. *)
Fixpoint for_in {A} (xs : list A) (body : A → IO unit) : IO unit :=
  match xs with
  | [] => mret tt
  | x :: rest => body x ;; for_in rest body
  end.

(** [len] *)
Definition len {A} (xs : list A) : nat := length xs.

(** *** [repr] of a [str], as [%r] prints it

    A target is a string of code points below 256. [repr] picks the quote
    (a single quote, unless the string has one and has no double quote),
    escapes the quote and the backslash, writes tab, line feed and carriage
    return as [\t], [\n], [\r], and every other non-printable code point
    as [\xNN]. *)
Definition single_quote : ascii := "'"%char.
Definition double_quote : ascii := "034"%char.
Definition backslash : ascii := "\"%char.

Definition hex_digits : string := "0123456789abcdef".

Definition hex_digit (n : nat) : ascii :=
  default "f"%char (String.get n hex_digits).

Definition isprintable (c : ascii) : bool :=
  let n := nat_of_ascii c in
  (bool_decide (32 ≤ n < 127) || bool_decide (161 ≤ n ∧ n ≠ 173))%nat.

Definition repr_char (quote c : ascii) : string :=
  let n := nat_of_ascii c in
  if bool_decide (c = quote ∨ c = backslash) then String backslash (String c "")
  else if bool_decide (n = 9%nat) then "\t"
  else if bool_decide (n = 10%nat) then "\n"
  else if bool_decide (n = 13%nat) then "\r"
  else if isprintable c then String c ""
  else String backslash (String "x" (String (hex_digit (n / 16)) (String (hex_digit (n mod 16)) ""))).

Fixpoint contains (c : ascii) (s : string) : bool :=
  match s with
  | EmptyString => false
  | String a rest => bool_decide (a = c) || contains c rest
  end.

Fixpoint repr_body (quote : ascii) (s : string) : string :=
  match s with
  | EmptyString => ""
  | String c rest => repr_char quote c +:+ repr_body quote rest
  end.

Definition repr (s : string) : string :=
  let quote :=
    if contains single_quote s && negb (contains double_quote s)
    then double_quote else single_quote in
  String quote (repr_body quote s +:+ String quote "").

(** Reading a [repr] back, as Python's parser reads the literal. *)
Fixpoint position (c : ascii) (s : string) : option nat :=
  match s with
  | EmptyString => None
  | String a rest => if bool_decide (a = c) then Some O else S <$> position c rest
  end.

Definition hex_value (c : ascii) : option nat := position c hex_digits.

(** The character an escape letter stands for. *)
Definition unescape (e : ascii) : option ascii :=
  if bool_decide (e = "t"%char) then Some "009"%char
  else if bool_decide (e = "n"%char) then Some "010"%char
  else if bool_decide (e = "r"%char) then Some "013"%char
  else if bool_decide (e = backslash ∨ e = single_quote ∨ e = double_quote) then Some e
  else None.

Fixpoint unrepr_body (quote : ascii) (s : string) : option string :=
  match s with
  | EmptyString => None
  | String c rest =>
      if bool_decide (c = backslash) then
        match rest with
        | String "x" (String h1 (String h2 rest')) =>
            hi ← hex_value h1; lo ← hex_value h2;
            String (ascii_of_nat (16 * hi + lo)) <$> unrepr_body quote rest'
        | String e rest' =>
            c' ← unescape e; String c' <$> unrepr_body quote rest'
        | EmptyString => None
        end
      else if bool_decide (c = quote) then
        match rest with
        | EmptyString => Some EmptyString
        | String _ _ => None
        end
      else String c <$> unrepr_body quote rest
  end.

Definition unrepr (shown : string) : option string :=
  match shown with
  | String quote rest =>
      if bool_decide (quote = single_quote ∨ quote = double_quote)
      then unrepr_body quote rest else None
  | EmptyString => None
  end.

(** ** The network and the three HTTP clients *)

(** How one client's GET ends, as that client presents it to the cell: a
    complete response arrived before the client's timeout, or the request
    failed below HTTP. [reason] is the status line's phrase, [body] the
    body as the client hands it over, and [detail] the client's text for
    the failure. *)
Inductive wire :=
| Responded (status : Z) (reason : string) (body : bytes)
| Failed (why : transport_failure) (detail : string).

(** The fate of one client's GET for a URL under a timeout in seconds. The
    whole exchange is taken to end, one way or the other. The clients
    differ in their texts, their timeout rules and their decoding, so each
    cell has a network of its own; running two cells against one network
    supposes that their requests end alike. *)
Definition network : Type := string → Z → wire.

Record Response := { status_code : Z; content : bytes }.

(** [conn.read()] and [await response.read()] *)
Definition read (response : Response) : bytes := content response.

(** [aiohttp.ClientSession()] *)
Inductive ClientSession := ClientSession_new.

Section Clients.
Variable net : network.

(** [requests.get(url, timeout=t)]: returns the response whatever its
    status code; raises when no response arrives. *)
Definition requests_get (url : string) (timeout : Z) : result Response :=
  match net url timeout with
  | Responded status _ body => Returned {| status_code := status; content := body |}
  | Failed why detail => Raised (RequestException why detail)
  end.

(** [urllib.request.urlopen(url, timeout=t)]: its error processor raises
    [HTTPError] unless [200 <= status < 300]. *)
Definition urlopen (url : string) (timeout : Z) : result Response :=
  match net url timeout with
  | Responded status reason body =>
      if bool_decide (200 ≤ status < 300)
      then Returned {| status_code := status; content := body |}
      else Raised (HTTPError status reason)
  | Failed why detail => Raised (URLError why detail)
  end.

(** [session.get(url, timeout=t)] of [aiohttp]: like [requests], the
    status code does not raise. *)
Definition session_get (session : ClientSession) (url : string) (timeout : Z) :
    result Response :=
  match net url timeout with
  | Responded status _ body => Returned {| status_code := status; content := body |}
  | Failed why detail => Raised (ClientError why detail)
  end.
End Clients.

(** ** Completion order

    The runtime decides which pending unit finishes next. A schedule is
    the list of those decisions: its head, taken modulo the number of
    pending units, is the position of the unit that finishes first. Every
    order of the units is the completion order of some schedule; a pool of
    five workers allows fewer orders when there are more than five units,
    so what holds for every schedule holds for the pool. *)
Fixpoint finish_in_turn {A} (n : nat) (sched : list nat) (pending : list A) : list A :=
  match n with
  | O => []
  | S n' =>
      let k := (hd 0 sched `mod` length pending)%nat in
      match pending !! k with
      | Some x => x :: finish_in_turn n' (tail sched) (delete k pending)
      | None => []
      end
  end.

Definition completion_order {A} (sched : list nat) (units : list A) : list A :=
  finish_in_turn (length units) sched units.

(** ** Cell [Serial] *)
Module Serial.

Definition URLS : list string :=
  [ "http://www.foxnews.com/";
    "http://www.cnn.com/";
    "http://europe.wsj.com/";
    "http://www.bbc.co.uk/";
    "http://nonexistent-subdomain.python.org/" ].

Section Cell.
Variable net : network.
(** The module-level list [URLS], as a parameter of [main]. *)
Variable URLS : list string.

Definition load_url (url : string) : IO unit :=
  try_except
    (response ← call (requests_get net url 60);
     print (url +:+ " page is " +:+ pretty (len (content response)) +:+ " bytes"))
    (λ exc, print (url +:+ " generated an exception: " +:+ str exc)).

Definition main : IO unit :=
  for_in URLS load_url.
End Cell.

End Serial.

(** ** Cell [Parallel] *)
Module Parallel.

Definition URLS : list string :=
  [ "http://www.foxnews.com/";
    "http://www.cnn.com/";
    "http://europe.wsj.com/";
    "http://www.bbc.co.uk/";
    "http://nonexistent-subdomain.python.org/" ].

(** A finished future: the value its call returned or the exception it
    raised. Futures are compared and hashed by identity. *)
Record Future := { ident : nat; outcome : result bytes }.

(** [future.result()] re-raises the call's exception. *)
Definition future_result (future : Future) : result bytes := outcome future.

(** The executor hands out a fresh future per submitted call. *)
Record ThreadPoolExecutor := { max_workers : nat; submitted : nat }.

Definition submit (executor : ThreadPoolExecutor) (job : result bytes) :
    Future * ThreadPoolExecutor :=
  ({| ident := submitted executor; outcome := job |},
   {| max_workers := max_workers executor; submitted := S (submitted executor) |}).

(** A dictionary with futures as keys: the key's identity leads to the
    key and its value. *)
Abbreviation dict := (gmap nat (Future * string)).

Definition setitem (d : dict) (future : Future) (url : string) : dict :=
  <[ident future := (future, url)]> d.

(** [d[future]] *)
Definition getitem (d : dict) (future : Future) : result string :=
  match d !! ident future with
  | Some (_, url) => Returned url
  | None => Raised (KeyError (ident future))
  end.

(** Iterating a dictionary yields its keys. *)
Definition keys (d : dict) : list Future := (map_to_list d).*2.*1.

(** [concurrent.futures.as_completed(fs)] yields the futures of [fs] as
    they finish. *)
Definition as_completed (sched : list nat) (fs : list Future) : list Future :=
  completion_order sched fs.

Section Cell.
Variable net : network.
Variable URLS : list string.

Definition load_url (url : string) (timeout : Z) : result bytes :=
  conn ← urlopen net url timeout;
  mret (read conn).

(** [{executor.submit(load_url, url, 60): url for url in URLS}], entered
    with the executor and the dictionary built so far. *)
Fixpoint future_to_url_from (executor : ThreadPoolExecutor) (urls : list string)
    (d : dict) : dict :=
  match urls with
  | [] => d
  | url :: rest =>
      let '(future, executor') := submit executor (load_url url 60) in
      future_to_url_from executor' rest (setitem d future url)
  end.

(** The [with ThreadPoolExecutor(max_workers=5) as executor:] block. *)
Definition main (sched : list nat) : IO unit :=
  let executor := {| max_workers := 5; submitted := 0 |} in
  let future_to_url := future_to_url_from executor URLS ∅ in
  for_in (as_completed sched (keys future_to_url)) (λ future,
    url ← call (getitem future_to_url future);
    try_except_else (call (future_result future))
      (λ exc, print (repr url +:+ " generated an exception: " +:+ str exc))
      (λ data, print (repr url +:+ " page is " +:+ pretty (len data) +:+ " bytes"))).
End Cell.

End Parallel.

(** ** Cell [Async] *)
Module Async.

Definition URLS : list string :=
  [ "http://www.foxnews.com/";
    "http://www.cnn.com/";
    "http://europe.wsj.com/";
    "http://www.bbc.co.uk/";
    "http://nonexistent-subdomain.python.org/" ].

(** [await asyncio.gather] over the unpacked task list: the coroutines run on one thread; each
    is resumed, and runs to its end, when its response has arrived. An
    exception leaving a coroutine is raised to the awaiting caller. *)
Definition gather (sched : list nat) (tasks : list (IO unit)) : IO unit :=
  for_in (completion_order sched tasks) (λ task, task).

Section Cell.
Variable net : network.
Variable URLS : list string.

Definition load_url (session : ClientSession) (url : string) : IO unit :=
  try_except
    (response ← call (session_get net session url 60);
     let data := read response in
     print (url +:+ " page is " +:+ pretty (len data) +:+ " bytes"))
    (λ exc, print (url +:+ " generated an exception: " +:+ str exc)).

Definition main (sched : list nat) : IO unit :=
  let session := ClientSession_new in
  let tasks := load_url session <$> URLS in
  gather sched tasks.
End Cell.

End Async.

(** ** Outcomes and the lines that report them *)

(** The result of one unit of work, for one target. *)
Inductive Outcome :=
| Success (target : string) (nbytes : nat)
| Failure (target : string) (description : string).

Definition target (o : Outcome) : string :=
  match o with
  | Success t _ => t
  | Failure t _ => t
  end.

Definition is_success (o : Outcome) : bool :=
  match o with
  | Success _ _ => true
  | Failure _ _ => false
  end.

(** The two shapes of a printed line; [shown] is the target as the cell
    prints it. *)
Definition success_line (shown : string) (nbytes : nat) : string :=
  shown +:+ " page is " +:+ pretty nbytes +:+ " bytes".

Definition failure_line (shown description : string) : string :=
  shown +:+ " generated an exception: " +:+ description.

(** The line that reports an outcome; [show] is the identity for the
    f-strings of [Serial] and [Async], and [repr] for the [%r] of
    [Parallel]. *)
Definition line_of (show : string → string) (o : Outcome) : string :=
  match o with
  | Success t n => success_line (show t) n
  | Failure t description => failure_line (show t) description
  end.

(** [line] has exactly one of the two shapes for the target shown as
    [shown]. *)
Definition one_of_two_shapes (shown line : string) : Prop :=
  ((∃ n, line = success_line shown n) ∧ ¬ (∃ description, line = failure_line shown description))
  ∨ ((∃ description, line = failure_line shown description) ∧ ¬ (∃ n, line = success_line shown n)).

(** What a unit of work that fetched [url] reports. *)
Definition outcome_of (url : string) (fetched : result bytes) : Outcome :=
  match fetched with
  | Returned data => Success url (len data)
  | Raised exc => Failure url (str exc)
  end.

(** Reading a line back: [s] without its prefix [p]. *)
Fixpoint strip_prefix (p s : string) : option string :=
  match p, s with
  | EmptyString, _ => Some s
  | String a p', String b s' => if bool_decide (a = b) then strip_prefix p' s' else None
  | String _ _, EmptyString => None
  end.

(** Is [line] a success line ([Some true]) or a failure line ([Some false])
    for the target shown as [shown]? *)
Definition classify (shown line : string) : option bool :=
  match strip_prefix shown line with
  | Some rest =>
      if bool_decide (is_Some (strip_prefix " page is " rest)) then Some true
      else if bool_decide (is_Some (strip_prefix " generated an exception: " rest))
      then Some false
      else None
  | None => None
  end.

(** The fetch of each cell's unit of work, without the printing. *)
Definition serial_fetch (net : network) (url : string) : result bytes :=
  content <$> requests_get net url 60.

Definition parallel_fetch (net : network) (url : string) : result bytes :=
  Parallel.load_url net url 60.

Definition async_fetch (net : network) (url : string) : result bytes :=
  read <$> session_get net ClientSession_new url 60.

(** The line each cell prints for a URL. *)
Definition serial_line (net : network) (url : string) : string :=
  line_of id (outcome_of url (serial_fetch net url)).

Definition parallel_line (net : network) (url : string) : string :=
  line_of repr (outcome_of url (parallel_fetch net url)).

Definition async_line (net : network) (url : string) : string :=
  line_of id (outcome_of url (async_fetch net url)).

(** [run] returns normally, whatever was on the console before, and has
    then printed exactly [lines]. *)
Definition runs_to (run : IO unit) (lines : list string) : Prop :=
  ∀ out, run out = (Returned tt, out ++ lines).

(** The errors a target can meet: no response (unresolved name, refused
    connection, expired timeout) or a response whose status is not 2xx. *)
Definition per_target_error (w : wire) : bool :=
  match w with
  | Responded status _ _ => negb (bool_decide (200 ≤ status < 300))
  | Failed _ _ => true
  end.

(** Two runs meet the same fate at a URL when both get a response with the
    same status, or both fail for the same cause; the bodies and the texts
    may differ. *)
Definition same_fate (w1 w2 : wire) : bool :=
  match w1, w2 with
  | Responded status1 _ _, Responded status2 _ _ => bool_decide (status1 = status2)
  | Failed why1 _, Failed why2 _ =>
      match why1, why2 with
      | NameResolutionFailure, NameResolutionFailure => true
      | ConnectionRefused, ConnectionRefused => true
      | TimeoutExpired, TimeoutExpired => true
      | _, _ => false
      end
  | _, _ => false
  end.

(** Networks for the examples: every URL answers with one page; no name
    resolves; and the hosts of the notebook's list, where one host is
    unknown and one answers 403. *)
Definition one_page (status : Z) (reason : string) (body : bytes) : network :=
  λ _ _, Responded status reason body.

Definition no_dns (detail : string) : network :=
  λ _ _, Failed NameResolutionFailure detail.

Definition notebook_net (body : bytes) : network := λ url _,
  if bool_decide (url = "http://nonexistent-subdomain.python.org/")
  then Failed NameResolutionFailure "[Errno 11001] getaddrinfo failed"
  else if bool_decide (url = "http://europe.wsj.com/")
  then Responded 403 "Forbidden" body
  else Responded 200 "OK" body.

(** The dictionary entry made for the [k]-th submitted call. *)
Definition submitted_entry (net : network) (k : nat) (url : string) :
    nat * (Parallel.Future * string) :=
  (k, ({| Parallel.ident := k; Parallel.outcome := Parallel.load_url net url 60 |}, url)).




(** ** Servers, and how the clients present their responses

    What a server sends back for a GET: the payload as it travels and,
    when the response has a Content-Encoding, the content that the payload
    decodes to. The codecs (gzip, deflate) are not modelled. *)
Inductive reply :=
| Reply (status : Z) (reason : string) (payload : bytes) (decoded : option bytes)
| NoReply (why : transport_failure) (detail : string).

Definition server : Type := string → Z → reply.

(** [requests] and [aiohttp] undo the Content-Encoding: [response.content]
    and [await response.read()] are the decoded content. *)
Definition decoding_client (srv : server) : network := λ url timeout,
  match srv url timeout with
  | Reply status reason payload decoded =>
      Responded status reason (default payload decoded)
  | NoReply why detail => Failed why detail
  end.

(** [urllib.request] does not: [conn.read()] is the payload as received. *)
Definition raw_client (srv : server) : network := λ url timeout,
  match srv url timeout with
  | Reply status reason payload _ => Responded status reason payload
  | NoReply why detail => Failed why detail
  end.

(** Did the request end with a response, and with one of status 2xx? *)
Definition responded (w : wire) : bool :=
  match w with
  | Responded _ _ _ => true
  | Failed _ _ => false
  end.

Definition responded_2xx (w : wire) : bool :=
  match w with
  | Responded status _ _ => bool_decide (200 ≤ status < 300)
  | Failed _ _ => false
  end.

(** Servers and a network for the examples: a page of 300 bytes that
    travels as 27 bytes under a Content-Encoding (the 27 bytes stand for
    the encoded stream); a page sent as it is; and a network on which
    every request times out. *)
Definition compressed_page : server :=
  λ _ _, Reply 200 "OK" (replicate 27 Byte.x1f) (Some (replicate 300 Byte.x78)).

Definition plain_page (payload : bytes) : server :=
  λ _ _, Reply 200 "OK" payload None.


(** * Properties *)

(** ** Loops and schedules *)

(** A loop whose body prints one line and returns prints one line per
    element, in order, and returns. *)
Lemma for_in_prints {A} (body : A → IO unit) (line : A → string) (xs : list A) :
  Forall (λ x, ∀ out, body x out = (Returned tt, out ++ [line x])) xs →
  ∀ out, for_in xs body out = (Returned tt, out ++ (line <$> xs)).
Proof.
  induction 1 as [|x rest Hx _ IH]; intros out; simpl.
  - by rewrite app_nil_r.
  - unfold mbind, IO_bind. rewrite Hx, IH.
    by rewrite <- app_assoc.
Qed.

Lemma for_in_fmap {A B} (f : A → B) (body : B → IO unit) (xs : list A) :
  for_in (f <$> xs) body = for_in xs (λ x, body (f x)).
Proof. induction xs as [|x rest IH]; csimpl; [done|]. by rewrite IH. Qed.

Lemma eq_perm {A} (xs ys : list A) : xs = ys → xs ≡ₚ ys.
Proof. by intros ->. Qed.

Lemma finish_in_turn_perm {A} (n : nat) (sched : list nat) (pending : list A) :
  length pending = n → finish_in_turn n sched pending ≡ₚ pending.
Proof.
  revert sched pending.
  induction n as [|n IH]; intros sched pending Hlen; simpl.
  - by destruct pending.
  - assert (hd 0 sched `mod` length pending < length pending)%nat as Hk
      by (apply Nat.mod_upper_bound; lia).
    destruct (lookup_lt_is_Some_2 _ _ Hk) as [x Hx].
    rewrite Hx.
    etrans; [|symmetry; apply (delete_Permutation _ _ _ Hx)].
    apply perm_skip, IH.
    rewrite length_delete by eauto. lia.
Qed.

(** Every unit finishes exactly once, whatever the schedule. *)
Lemma completion_order_perm {A} (sched : list nat) (units : list A) :
  completion_order sched units ≡ₚ units.
Proof. by apply finish_in_turn_perm. Qed.

Lemma finish_in_turn_fmap {A B} (f : A → B) (n : nat) (sched : list nat) (pending : list A) :
  finish_in_turn n sched (f <$> pending) = f <$> finish_in_turn n sched pending.
Proof.
  revert sched pending.
  induction n as [|n IH]; intros sched pending; simpl; [done|].
  rewrite length_fmap, list_lookup_fmap.
  destruct (pending !! _) as [x|]; simpl; [|done].
  by rewrite <- list_fmap_delete, IH.
Qed.

Lemma completion_order_fmap {A B} (f : A → B) (sched : list nat) (units : list A) :
  completion_order sched (f <$> units) = f <$> completion_order sched units.
Proof.
  unfold completion_order. by rewrite length_fmap, finish_in_turn_fmap.
Qed.

(** ** Lines *)

Lemma strip_prefix_app (p s : string) : strip_prefix p (p +:+ s) = Some s.
Proof.
  induction p as [|a p IH]; simpl; [done|].
  by rewrite bool_decide_eq_true_2.
Qed.

Lemma classify_success_line (shown : string) (n : nat) :
  classify shown (success_line shown n) = Some true.
Proof.
  unfold classify, success_line. by rewrite strip_prefix_app.
Qed.

Lemma classify_failure_line (shown description : string) :
  classify shown (failure_line shown description) = Some false.
Proof.
  unfold classify, failure_line. by rewrite strip_prefix_app.
Qed.

(** The line tells success from failure. *)
Lemma classify_line_of (show : string → string) (o : Outcome) :
  classify (show (target o)) (line_of show o) = Some (is_success o).
Proof.
  destruct o; simpl; auto using classify_success_line, classify_failure_line.
Qed.

(** For one target, no line has both shapes. *)
Lemma success_line_ne_failure_line (shown : string) (n : nat) (description : string) :
  success_line shown n ≠ failure_line shown description.
Proof.
  intros Heq.
  pose proof (classify_success_line shown n) as Hs.
  rewrite Heq, classify_failure_line in Hs. discriminate.
Qed.

(** ** [repr] can be read back *)

Lemma unrepr_body_char (quote c : ascii) (tail : string) :
  quote = single_quote ∨ quote = double_quote →
  unrepr_body quote (repr_char quote c +:+ tail)
  = String c <$> unrepr_body quote tail.
Proof.
  intros [-> | ->]; destruct c as [[] [] [] [] [] [] [] []]; reflexivity.
Qed.

Lemma string_app_assoc (s1 s2 s3 : string) : (s1 +:+ s2) +:+ s3 = s1 +:+ s2 +:+ s3.
Proof.
  induction s1 as [|a s1 IH]; [done|].
  change (String a ((s1 +:+ s2) +:+ s3) = String a (s1 +:+ s2 +:+ s3)).
  by rewrite IH.
Qed.

Lemma unrepr_body_repr_body (quote : ascii) (s : string) :
  quote = single_quote ∨ quote = double_quote →
  unrepr_body quote (repr_body quote s +:+ String quote "") = Some s.
Proof.
  intros Hq. induction s as [|c s IH]; simpl.
  - destruct Hq as [-> | ->]; reflexivity.
  - by rewrite string_app_assoc, unrepr_body_char, IH.
Qed.

Lemma unrepr_repr (s : string) : unrepr (repr s) = Some s.
Proof.
  unfold repr, unrepr.
  destruct (contains single_quote s && negb (contains double_quote s)).
  - rewrite bool_decide_eq_true_2 by auto. apply unrepr_body_repr_body; auto.
  - rewrite bool_decide_eq_true_2 by auto. apply unrepr_body_repr_body; auto.
Qed.

(** ** The units of work *)

Lemma serial_line_cases (net : network) (url : string) :
  serial_line net url
  = match net url 60 with
    | Responded _ _ body => success_line url (len body)
    | Failed _ detail => failure_line url detail
    end.
Proof.
  unfold serial_line, serial_fetch, requests_get.
  by destruct (net url 60).
Qed.

Lemma async_line_cases (net : network) (url : string) :
  async_line net url
  = match net url 60 with
    | Responded _ _ body => success_line url (len body)
    | Failed _ detail => failure_line url detail
    end.
Proof.
  unfold async_line, async_fetch, session_get.
  by destruct (net url 60).
Qed.

Lemma parallel_line_cases (net : network) (url : string) :
  parallel_line net url
  = match net url 60 with
    | Responded status reason body =>
        if bool_decide (200 ≤ status < 300)
        then success_line (repr url) (len body)
        else failure_line (repr url) ("HTTP Error " +:+ pretty status +:+ ": " +:+ reason)
    | Failed _ detail =>
        failure_line (repr url) ("<urlopen error " +:+ detail +:+ ">")
    end.
Proof.
  unfold parallel_line, parallel_fetch, Parallel.load_url, urlopen.
  destruct (net url 60) as [status reason body|why detail]; [|done].
  by case_bool_decide.
Qed.

Lemma Serial_load_url_runs (net : network) (url : string) :
  runs_to (Serial.load_url net url) [serial_line net url].
Proof.
  intros out.
  unfold Serial.load_url, serial_line, serial_fetch, try_except, requests_get, call.
  unfold mbind, IO_bind.
  by destruct (net url 60).
Qed.

Lemma Async_load_url_runs (net : network) (session : ClientSession) (url : string) :
  runs_to (Async.load_url net session url) [async_line net url].
Proof.
  intros out.
  unfold Async.load_url, async_line, async_fetch, try_except, session_get, call.
  unfold mbind, IO_bind.
  by destruct (net url 60).
Qed.

(** ** The batches *)

Lemma Serial_main_runs (net : network) (urls : list string) :
  runs_to (Serial.main net urls) (serial_line net <$> urls).
Proof.
  intros out. unfold Serial.main. apply for_in_prints, Forall_forall.
  intros url _. apply Serial_load_url_runs.
Qed.

Lemma Async_main_runs (net : network) (urls : list string) (sched : list nat) :
  runs_to (Async.main net urls sched) (async_line net <$> completion_order sched urls).
Proof.
  intros out. unfold Async.main, Async.gather.
  rewrite completion_order_fmap, for_in_fmap.
  apply for_in_prints, Forall_forall.
  intros url _. apply Async_load_url_runs.
Qed.

(** The dictionary comprehension makes one entry per URL, under a fresh
    key each. *)
Lemma future_to_url_from_entries (net : network) (urls : list string) :
  ∀ (executor : Parallel.ThreadPoolExecutor) (d : gmap nat (Parallel.Future * string)),
    (∀ i, is_Some (d !! i) → (i < Parallel.submitted executor)%nat) →
    map_to_list (Parallel.future_to_url_from net executor urls d)
    ≡ₚ imap (λ i, submitted_entry net (Parallel.submitted executor + i)) urls
       ++ map_to_list d.
Proof.
  induction urls as [|url rest IH]; intros executor d Hfresh; simpl; [done|].
  rewrite IH; simpl.
  - unfold Parallel.setitem; simpl.
    rewrite map_to_list_insert.
    + rewrite Nat.add_0_r. unfold submitted_entry at 3.
      rewrite <- Permutation_middle. do 2 f_equiv.
      apply eq_perm, imap_ext. intros i x _. simpl.
      by rewrite Nat.add_succ_r.
    + destruct (d !! Parallel.submitted executor) eqn:Hd; [|done].
      specialize (Hfresh _ (mk_is_Some _ _ Hd)). lia.
  - intros i. unfold Parallel.setitem; simpl.
    rewrite lookup_insert. case_decide; [lia|].
    intros Hi. specialize (Hfresh _ Hi). lia.
Qed.

Lemma submitted_entries_urls (net : network) (urls : list string) (k : nat) :
  (imap (λ i, submitted_entry net (k + i)) urls).*2.*2 = urls.
Proof.
  revert k. induction urls as [|url rest IH]; intros k; csimpl; [done|].
  f_equal. rewrite <- (IH (S k)) at 2. do 2 f_equal.
  apply imap_ext. intros i x _. simpl. by rewrite Nat.add_succ_r.
Qed.

Lemma Parallel_main_runs (net : network) (urls : list string) (sched : list nat) :
  ∃ order : list string,
    order ≡ₚ urls ∧
    runs_to (Parallel.main net urls sched) (parallel_line net <$> order).
Proof.
  unfold Parallel.main, Parallel.as_completed, Parallel.keys.
  set (executor := {| Parallel.max_workers := 5; Parallel.submitted := 0 |}).
  set (d := Parallel.future_to_url_from net executor urls ∅).
  assert (map_to_list d ≡ₚ imap (submitted_entry net) urls) as Hd.
  { unfold d. rewrite future_to_url_from_entries.
    - by rewrite map_to_list_empty, app_nil_r.
    - intros i [x Hx]. by rewrite lookup_empty in Hx. }
  set (ps := completion_order sched (map_to_list d).*2).
  assert (ps ≡ₚ (map_to_list d).*2) as Hps by apply completion_order_perm.
  exists (ps.*2). split.
  - rewrite Hps, Hd. apply eq_perm, (submitted_entries_urls net urls 0).
  - intros out.
    rewrite completion_order_fmap, for_in_fmap. fold ps.
    rewrite <- list_fmap_compose.
    apply for_in_prints, Forall_forall.
    intros [future url] Hin out'.
    rewrite Hps in Hin. apply list_elem_of_fmap in Hin as [[i entry] [-> Hin]].
    pose proof Hin as Hlook. apply elem_of_map_to_list in Hlook.
    rewrite Hd in Hin. apply list_elem_of_lookup in Hin as [j Hj].
    rewrite list_lookup_imap in Hj.
    destruct (urls !! j) as [u|]; simpl in Hj; [|done].
    injection Hj as Hi Hentry. subst i. rewrite <- Hentry in *. simpl.
    unfold Parallel.getitem, call, mbind, IO_bind, try_except_else.
    unfold Parallel.future_result, parallel_line, parallel_fetch. simpl.
    rewrite Hlook. simpl.
    by destruct (Parallel.load_url net u 60).
Qed.

(** Every order of the units is the completion order of some schedule. *)
Lemma completion_order_any {A} (units order : list A) :
  order ≡ₚ units → ∃ sched, completion_order sched units = order.
Proof.
  unfold completion_order. revert units.
  induction order as [|x order IH]; intros units Hperm.
  - apply Permutation_nil in Hperm. subst units. by exists [].
  - assert (x ∈ units) as Hin by (rewrite <- Hperm; apply list_elem_of_here).
    apply list_elem_of_lookup in Hin as [k Hk].
    pose proof (delete_Permutation _ _ _ Hk) as Hdel.
    destruct (IH (delete k units)) as [sched Hsched].
    { apply (Permutation_cons_inv (a := x)). by rewrite Hperm. }
    exists (k :: sched).
    pose proof (lookup_lt_Some _ _ _ Hk) as Hlt.
    destruct units as [|u units]; [done|].
    cbn [finish_in_turn length hd tail].
    rewrite Nat.mod_small by done.
    rewrite Hk. f_equal.
    rewrite length_delete in Hsched by eauto.
    by rewrite Nat.sub_1_r in Hsched.
Qed.

Lemma target_outcome_of (url : string) (fetched : result bytes) :
  target (outcome_of url fetched) = url.
Proof. by destruct fetched. Qed.

Lemma runs_to_length (run : IO unit) (lines : list string) :
  runs_to run lines → length (run []).2 = length lines.
Proof. intros Hrun. by rewrite Hrun. Qed.

Lemma line_one_of_two_shapes (show : string → string) (o : Outcome) :
  one_of_two_shapes (show (target o)) (line_of show o).
Proof.
  destruct o as [t n|t description]; simpl; [left|right].
  - split; [by exists n|]. intros [d Hd].
    by apply success_line_ne_failure_line in Hd.
  - split; [by exists description|]. intros [n Hn].
    symmetry in Hn. by apply success_line_ne_failure_line in Hn.
Qed.

(** The decimal numeral in a success line determines the count. *)
Lemma success_line_inj (shown : string) (n m : nat) :
  success_line shown n = success_line shown m → n = m.
Proof.
  unfold success_line. intros Heq.
  apply (inj (String.app shown)), (inj (String.app " page is ")) in Heq.
  assert (∀ s t : string, s +:+ " bytes" = t +:+ " bytes" → s = t) as Hcancel.
  { induction s as [|a s IH]; intros [|b t] Hst; try done.
    - exfalso. injection Hst as -> Hst.
      destruct t as [|? [|? [|? [|? [|? [|? ?]]]]]]; discriminate.
    - exfalso. injection Hst as -> Hst.
      destruct s as [|? [|? [|? [|? [|? [|? ?]]]]]]; discriminate.
    - injection Hst as -> Hst. f_equal. by apply IH. }
  by apply Hcancel, (inj pretty) in Heq.
Qed.

(** * The claims *)

(** C1. In each of the three cells a batch produces exactly one outcome
    per target, for every list of targets (empty or not): the printed
    lines report a list of outcomes whose targets are the submitted ones,
    in input order for [Serial] and in some order for [Parallel] and
    [Async], so no target is left out or reported twice, and there are as
    many printed lines as targets. *)
Theorem one_outcome_per_target (net : network) (urls : list string) (sched : list nat) :
  (∃ outcomes : list Outcome,
     target <$> outcomes = urls
     ∧ runs_to (Serial.main net urls) (line_of id <$> outcomes)
     ∧ length (Serial.main net urls []).2 = length urls)
  ∧ (∃ outcomes : list Outcome,
       target <$> outcomes ≡ₚ urls
       ∧ runs_to (Parallel.main net urls sched) (line_of repr <$> outcomes)
       ∧ length (Parallel.main net urls sched []).2 = length urls)
  ∧ (∃ outcomes : list Outcome,
       target <$> outcomes ≡ₚ urls
       ∧ runs_to (Async.main net urls sched) (line_of id <$> outcomes)
       ∧ length (Async.main net urls sched []).2 = length urls).
Proof.
  split; [|split].
  - exists ((λ url, outcome_of url (serial_fetch net url)) <$> urls).
    pose proof (Serial_main_runs net urls) as Hrun.
    split; [|split].
    + rewrite <- list_fmap_compose. rewrite <- (list_fmap_id urls) at 2.
      apply list_fmap_ext. intros _ url _. apply target_outcome_of.
    + by rewrite <- list_fmap_compose.
    + by rewrite (runs_to_length _ _ Hrun), length_fmap.
  - destruct (Parallel_main_runs net urls sched) as (order & Hperm & Hrun).
    exists ((λ url, outcome_of url (parallel_fetch net url)) <$> order).
    split; [|split].
    + rewrite <- list_fmap_compose, <- Hperm. apply eq_perm.
      rewrite <- (list_fmap_id order) at 2.
      apply list_fmap_ext. intros _ url _. apply target_outcome_of.
    + by rewrite <- list_fmap_compose.
    + by rewrite (runs_to_length _ _ Hrun), length_fmap, Hperm.
  - pose proof (Async_main_runs net urls sched) as Hrun.
    exists ((λ url, outcome_of url (async_fetch net url)) <$> completion_order sched urls).
    split; [|split].
    + rewrite <- list_fmap_compose.
      rewrite <- (completion_order_perm sched urls) at 2. apply eq_perm.
      rewrite <- (list_fmap_id (completion_order sched urls)) at 2.
      apply list_fmap_ext. intros _ url _. apply target_outcome_of.
    + by rewrite <- list_fmap_compose.
    + by rewrite (runs_to_length _ _ Hrun), length_fmap, completion_order_perm.
Qed.

(** C2, as stated, fails in [Serial] (and [Async]): a response with a
    non-success status is one of the per-target errors the claim lists,
    yet [requests.get] returns it, nothing is raised, and the target is
    reported with a success line, not a failure line. *)
Lemma serial_reports_404_as_success :
  per_target_error (one_page 404 "Not Found" [Byte.x2e] "http://example.org/" 60) = true
  ∧ Serial.load_url (one_page 404 "Not Found" [Byte.x2e]) "http://example.org/" []
    = (Returned tt, ["http://example.org/ page is 1 bytes"])
  ∧ Async.load_url (one_page 404 "Not Found" [Byte.x2e]) ClientSession_new
      "http://example.org/" []
    = (Returned tt, ["http://example.org/ page is 1 bytes"])
  ∧ ∀ description,
      "http://example.org/ page is 1 bytes" ≠ failure_line "http://example.org/" description.
Proof.
  repeat split.
  intros description Heq.
  by apply (success_line_ne_failure_line "http://example.org/" 1 description).
Qed.

(** C2, amended. Every exception raised by a target's fetch is caught at
    the unit of work and becomes that target's failure line: the three
    batches return normally whatever the network does, having printed one
    line per target; a fetch that raised [exc] is reported by the failure
    line with [str exc]. What raises: in [Parallel] every per-target error
    (no response, or a status outside 2xx); in [Serial] and [Async] only
    the absence of a response, a response with a status outside 2xx being
    returned and reported by a success line. A target's line depends on
    the fate of its own request only. *)
Theorem raised_errors_become_failures (net : network) (urls : list string)
    (sched : list nat) :
  runs_to (Serial.main net urls) (serial_line net <$> urls)
  ∧ (∃ order, order ≡ₚ urls
       ∧ runs_to (Parallel.main net urls sched) (parallel_line net <$> order))
  ∧ (∃ order, order ≡ₚ urls
       ∧ runs_to (Async.main net urls sched) (async_line net <$> order))
  ∧ (∀ url exc,
       (requests_get net url 60 = Raised exc →
        serial_line net url = failure_line url (str exc))
       ∧ (Parallel.load_url net url 60 = Raised exc →
          parallel_line net url = failure_line (repr url) (str exc))
       ∧ (session_get net ClientSession_new url 60 = Raised exc →
          async_line net url = failure_line url (str exc)))
  ∧ (∀ url, per_target_error (net url 60) = true →
       (∃ exc, Parallel.load_url net url 60 = Raised exc)
       ∧ match net url 60 with
         | Failed _ _ =>
             (∃ exc, requests_get net url 60 = Raised exc)
             ∧ (∃ exc, session_get net ClientSession_new url 60 = Raised exc)
         | Responded _ _ body =>
             serial_line net url = success_line url (len body)
             ∧ async_line net url = success_line url (len body)
         end)
  ∧ (∀ net' url, net' url 60 = net url 60 →
       serial_line net' url = serial_line net url
       ∧ parallel_line net' url = parallel_line net url
       ∧ async_line net' url = async_line net url).
Proof.
  split; [apply Serial_main_runs|].
  split; [apply Parallel_main_runs|].
  split; [exists (completion_order sched urls); split;
          [apply completion_order_perm | apply Async_main_runs]|].
  split; [|split].
  - intros url exc. repeat split.
    + unfold serial_line, serial_fetch. by intros ->.
    + unfold parallel_line, parallel_fetch. by intros ->.
    + unfold async_line, async_fetch. by intros ->.
  - intros url Herr.
    rewrite serial_line_cases, async_line_cases.
    unfold Parallel.load_url, urlopen, requests_get, session_get.
    destruct (net url 60) as [status reason body|why detail]; simpl in *.
    + apply negb_true_iff in Herr. rewrite Herr.
      split; [by eexists|done].
    + split; [by eexists|]. split; by eexists.
  - intros net' url Hsame.
    rewrite !serial_line_cases, !parallel_line_cases, !async_line_cases.
    by rewrite Hsame.
Qed.

(** C3, as stated, fails: against a server that answers 404 the serial
    cell reports the target with a success line and the thread-pool cell
    with a failure line. *)
Lemma serial_and_thread_pool_disagree_on_404 :
  Serial.main (one_page 404 "Not Found" [Byte.x2e]) ["http://example.org/"] []
  = (Returned tt, ["http://example.org/ page is 1 bytes"])
  ∧ classify "http://example.org/" "http://example.org/ page is 1 bytes" = Some true
  ∧ Parallel.main (one_page 404 "Not Found" [Byte.x2e]) ["http://example.org/"] [] []
    = (Returned tt,
       ["'http://example.org/' generated an exception: HTTP Error 404: Not Found"])
  ∧ classify (repr "http://example.org/")
      "'http://example.org/' generated an exception: HTTP Error 404: Not Found"
    = Some false.
Proof. repeat split; vm_compute; reflexivity. Qed.

(** C3, amended. Each cell classifies a target by how its own client's
    request ends: [Serial] and [Async] report a success exactly when their
    client returns a response, whatever its status, and [Parallel] exactly
    when its client returns one, which it does only for a status in 2xx.
    So where the three requests for a target end alike, [Serial] and
    [Async] classify the target alike, and [Parallel] agrees with them
    unless the requests end with a response of a status outside 2xx, where
    it reports a failure and they report a success. Each cell runs against
    its own network: a target whose requests end differently for the three
    clients may be classified differently, and the lines need not be the
    same even where the classification is. *)
Theorem strategies_agree_where_requests_end_alike
    (net_serial net_parallel net_async : network) (urls : list string)
    (sched_parallel sched_async : list nat) :
  ∃ order_parallel order_async : list string,
    order_parallel ≡ₚ urls ∧ order_async ≡ₚ urls
    ∧ runs_to (Serial.main net_serial urls) (serial_line net_serial <$> urls)
    ∧ runs_to (Parallel.main net_parallel urls sched_parallel)
        (parallel_line net_parallel <$> order_parallel)
    ∧ runs_to (Async.main net_async urls sched_async)
        (async_line net_async <$> order_async)
    ∧ ∀ url,
        classify url (serial_line net_serial url)
        = Some (match requests_get net_serial url 60 with
                | Returned _ => true
                | Raised _ => false
                end)
        ∧ classify (repr url) (parallel_line net_parallel url)
          = Some (match urlopen net_parallel url 60 with
                  | Returned _ => true
                  | Raised _ => false
                  end)
        ∧ classify url (async_line net_async url)
          = Some (match session_get net_async ClientSession_new url 60 with
                  | Returned _ => true
                  | Raised _ => false
                  end)
        ∧ classify url (serial_line net_serial url)
          = Some (responded (net_serial url 60))
        ∧ classify (repr url) (parallel_line net_parallel url)
          = Some (responded_2xx (net_parallel url 60))
        ∧ classify url (async_line net_async url)
          = Some (responded (net_async url 60))
        ∧ (∀ status reason_s body_s reason_p body_p reason_a body_a,
             net_serial url 60 = Responded status reason_s body_s →
             net_parallel url 60 = Responded status reason_p body_p →
             net_async url 60 = Responded status reason_a body_a →
             classify url (serial_line net_serial url) = Some true
             ∧ classify url (async_line net_async url) = Some true
             ∧ classify (repr url) (parallel_line net_parallel url)
               = Some (bool_decide (200 ≤ status < 300)))
        ∧ (responded (net_serial url 60) = false →
           responded (net_parallel url 60) = false →
           responded (net_async url 60) = false →
           classify url (serial_line net_serial url) = Some false
           ∧ classify url (async_line net_async url) = Some false
           ∧ classify (repr url) (parallel_line net_parallel url) = Some false).
Proof.
  destruct (Parallel_main_runs net_parallel urls sched_parallel)
    as (order & Hperm & Hrun).
  exists order, (completion_order sched_async urls).
  split; [done|]. split; [apply completion_order_perm|].
  split; [apply Serial_main_runs|]. split; [done|].
  split; [apply Async_main_runs|].
  intros url.
  rewrite serial_line_cases, async_line_cases, parallel_line_cases.
  unfold requests_get, urlopen, session_get.
  destruct (net_serial url 60) as [status_s reason_s body_s|why_s detail_s],
    (net_parallel url 60) as [status_p reason_p body_p|why_p detail_p],
    (net_async url 60) as [status_a reason_a body_a|why_a detail_a]; simpl;
    repeat case_bool_decide;
    rewrite ?classify_success_line, ?classify_failure_line;
    repeat split; try done.
  all: intros; simplify_eq.
  - by rewrite bool_decide_eq_true_2.
  - by rewrite bool_decide_eq_false_2.
Qed.

Lemma elem_of_line (line : string → string) (url : string) (order urls : list string) :
  order ≡ₚ urls → url ∈ urls → line url ∈ line <$> order.
Proof.
  intros Hperm Hin. apply list_elem_of_fmap. exists url.
  by rewrite Hperm.
Qed.

(** C4, as stated, fails in [Serial] and [Async]: [requests] and [aiohttp]
    undo a Content-Encoding, so for a page of 300 bytes that travels as a
    payload of 27 bytes their lines report 300 bytes and not the 27 that
    were received; [Parallel] reports the 27. *)
Lemma decoding_clients_report_decoded_length :
  compressed_page "http://example.org/" 60
  = Reply 200 "OK" (replicate 27 Byte.x1f) (Some (replicate 300 Byte.x78))
  ∧ length (replicate 27 Byte.x1f) = 27%nat
  ∧ Serial.load_url (decoding_client compressed_page) "http://example.org/" []
    = (Returned tt, ["http://example.org/ page is 300 bytes"])
  ∧ Async.load_url (decoding_client compressed_page) ClientSession_new
      "http://example.org/" []
    = (Returned tt, ["http://example.org/ page is 300 bytes"])
  ∧ Parallel.main (raw_client compressed_page) ["http://example.org/"] [] []
    = (Returned tt, ["'http://example.org/' page is 27 bytes"]).
Proof. repeat split; vm_compute; reflexivity. Qed.

(** C4, amended. When the response to a target's GET arrives (within the
    timeout), the number in the target's success line is the length of the
    body as the client returns it. In [Serial] and [Async], for a response
    of any status, that is the content after the client has undone a
    Content-Encoding, and so the size of the payload received when the
    response has none. In [Parallel], where the fetch succeeds for a
    status in 2xx, it is the size of the payload as received. Each cell
    has its own server; the numeral determines the number. *)
Theorem success_reports_length_of_returned_body
    (srv_serial srv_parallel srv_async : server) (urls : list string)
    (sched_parallel sched_async : list nat) (url : string)
    (status_s status_p status_a : Z) (reason_s reason_p reason_a : string)
    (payload_s payload_p payload_a : bytes)
    (decoded_s decoded_p decoded_a : option bytes) :
  url ∈ urls →
  srv_serial url 60 = Reply status_s reason_s payload_s decoded_s →
  srv_parallel url 60 = Reply status_p reason_p payload_p decoded_p →
  200 ≤ status_p < 300 →
  srv_async url 60 = Reply status_a reason_a payload_a decoded_a →
  ∃ lines_serial lines_parallel lines_async : list string,
    runs_to (Serial.main (decoding_client srv_serial) urls) lines_serial
    ∧ runs_to (Parallel.main (raw_client srv_parallel) urls sched_parallel)
        lines_parallel
    ∧ runs_to (Async.main (decoding_client srv_async) urls sched_async) lines_async
    ∧ runs_to (Serial.load_url (decoding_client srv_serial) url)
        [url +:+ " page is "
           +:+ pretty (length (default payload_s decoded_s)) +:+ " bytes"]
    ∧ url +:+ " page is " +:+ pretty (length (default payload_s decoded_s)) +:+ " bytes"
      ∈ lines_serial
    ∧ Parallel.load_url (raw_client srv_parallel) url 60 = Returned payload_p
    ∧ repr url +:+ " page is " +:+ pretty (length payload_p) +:+ " bytes"
      ∈ lines_parallel
    ∧ runs_to (Async.load_url (decoding_client srv_async) ClientSession_new url)
        [url +:+ " page is "
           +:+ pretty (length (default payload_a decoded_a)) +:+ " bytes"]
    ∧ url +:+ " page is " +:+ pretty (length (default payload_a decoded_a)) +:+ " bytes"
      ∈ lines_async
    ∧ (decoded_s = None →
       url +:+ " page is " +:+ pretty (length payload_s) +:+ " bytes" ∈ lines_serial)
    ∧ (decoded_a = None →
       url +:+ " page is " +:+ pretty (length payload_a) +:+ " bytes" ∈ lines_async)
    ∧ (∀ n m : nat, pretty n = pretty m → n = m).
Proof.
  intros Hin Hs Hp Hstatus Ha.
  destruct (Parallel_main_runs (raw_client srv_parallel) urls sched_parallel)
    as (order & Hperm & Hrun).
  pose proof (serial_line_cases (decoding_client srv_serial) url) as Hsl.
  pose proof (async_line_cases (decoding_client srv_async) url) as Hal.
  pose proof (parallel_line_cases (raw_client srv_parallel) url) as Hpl.
  unfold decoding_client in Hsl at 2. unfold decoding_client in Hal at 2.
  unfold raw_client in Hpl at 2.
  rewrite Hs in Hsl. rewrite Ha in Hal. rewrite Hp in Hpl.
  rewrite bool_decide_eq_true_2 in Hpl by done.
  unfold success_line, len in Hsl, Hal, Hpl.
  exists (serial_line (decoding_client srv_serial) <$> urls),
    (parallel_line (raw_client srv_parallel) <$> order),
    (async_line (decoding_client srv_async) <$> completion_order sched_async urls).
  split; [apply Serial_main_runs|]. split; [done|].
  split; [apply Async_main_runs|].
  assert (serial_line (decoding_client srv_serial) url
          ∈ serial_line (decoding_client srv_serial) <$> urls) as Hs_in
    by by apply (elem_of_line _ _ urls urls).
  assert (async_line (decoding_client srv_async) url
          ∈ async_line (decoding_client srv_async)
              <$> completion_order sched_async urls) as Ha_in
    by by apply (elem_of_line _ _ _ urls); [apply completion_order_perm|].
  split; [rewrite <- Hsl; apply Serial_load_url_runs|].
  split; [by rewrite <- Hsl|].
  split.
  { unfold Parallel.load_url, urlopen, raw_client. rewrite Hp.
    by rewrite bool_decide_eq_true_2. }
  split; [rewrite <- Hpl; by apply (elem_of_line _ _ _ urls)|].
  split; [rewrite <- Hal; apply Async_load_url_runs|].
  split; [by rewrite <- Hal|].
  split.
  { intros ->. change (default payload_s None) with payload_s in Hsl.
    by rewrite <- Hsl. }
  split.
  { intros ->. change (default payload_a None) with payload_a in Hal.
    by rewrite <- Hal. }
  intros n m. apply (inj pretty).
Qed.

(** A compressed page for [Serial], the same payload unopened for
    [Parallel], and a plain page of three bytes for [Async]. *)
Lemma success_reports_length_of_returned_body_witness :
  "http://www.cnn.com/" ∈ Serial.URLS
  ∧ compressed_page "http://www.cnn.com/" 60
    = Reply 200 "OK" (replicate 27 Byte.x1f) (Some (replicate 300 Byte.x78))
  ∧ 200 ≤ 200 < 300
  ∧ plain_page [Byte.x3c; Byte.x70; Byte.x3e] "http://www.cnn.com/" 60
    = Reply 200 "OK" [Byte.x3c; Byte.x70; Byte.x3e] None
  ∧ ∃ lines_serial lines_parallel lines_async : list string,
      runs_to (Serial.main (decoding_client compressed_page) Serial.URLS) lines_serial
      ∧ runs_to (Parallel.main (raw_client compressed_page) Serial.URLS [2; 0]%nat)
          lines_parallel
      ∧ runs_to (Async.main (decoding_client (plain_page [Byte.x3c; Byte.x70; Byte.x3e]))
                   Serial.URLS [1; 3]%nat)
          lines_async
      ∧ runs_to (Serial.load_url (decoding_client compressed_page) "http://www.cnn.com/")
          ["http://www.cnn.com/ page is 300 bytes"]
      ∧ "http://www.cnn.com/ page is 300 bytes" ∈ lines_serial
      ∧ Parallel.load_url (raw_client compressed_page) "http://www.cnn.com/" 60
        = Returned (replicate 27 Byte.x1f)
      ∧ "'http://www.cnn.com/' page is 27 bytes" ∈ lines_parallel
      ∧ runs_to (Async.load_url (decoding_client (plain_page [Byte.x3c; Byte.x70; Byte.x3e]))
                   ClientSession_new "http://www.cnn.com/")
          ["http://www.cnn.com/ page is 3 bytes"]
      ∧ "http://www.cnn.com/ page is 3 bytes" ∈ lines_async.
Proof.
  split; [unfold Serial.URLS; apply list_elem_of_further, list_elem_of_here|].
  split; [reflexivity|]. split; [lia|]. split; [reflexivity|].
  destruct (success_reports_length_of_returned_body
              compressed_page compressed_page (plain_page [Byte.x3c; Byte.x70; Byte.x3e])
              Serial.URLS [2; 0]%nat [1; 3]%nat "http://www.cnn.com/"
              200 200 200 "OK" "OK" "OK"
              (replicate 27 Byte.x1f) (replicate 27 Byte.x1f) [Byte.x3c; Byte.x70; Byte.x3e]
              (Some (replicate 300 Byte.x78)) (Some (replicate 300 Byte.x78)) None)
    as (lines_s & lines_p & lines_a & Hs & Hp & Ha & Hsu & Hsi & Hpu & Hpi & Hau & Hai & _).
  - unfold Serial.URLS. apply list_elem_of_further, list_elem_of_here.
  - reflexivity.
  - reflexivity.
  - lia.
  - reflexivity.
  - exists lines_s, lines_p, lines_a.
    split; [exact Hs|]. split; [exact Hp|]. split; [exact Ha|].
    split; [exact Hsu|]. split; [exact Hsi|]. split; [exact Hpu|].
    split; [exact Hpi|]. split; [exact Hau|]. exact Hai.
Defined.

(** C5. Every target gets exactly one line, in each of the three cells,
    and the batch returns normally, so no line is omitted. The line begins
    with the target as the cell shows it: the target itself in the
    f-strings of [Serial] and [Async], and its [repr], from which the
    target is read back, under the [%r] of [Parallel]. When the cell's
    client returned the response, the line is the success line with the
    length of the body it returned; when the client raised, the line is
    the failure line with [str] of the exception it raised. No line has
    both shapes. Each cell runs against its own network. *)
Theorem every_target_gets_one_line (net_serial net_parallel net_async : network)
    (urls : list string) (sched_parallel sched_async : list nat) :
  (∃ lines, runs_to (Serial.main net_serial urls) lines
     ∧ Forall2 (λ url line,
         one_of_two_shapes url line
         ∧ match requests_get net_serial url 60 with
           | Returned response =>
               line = url +:+ " page is "
                        +:+ pretty (length (content response)) +:+ " bytes"
           | Raised exc => line = url +:+ " generated an exception: " +:+ str exc
           end) urls lines)
  ∧ (∃ order lines, order ≡ₚ urls
       ∧ runs_to (Parallel.main net_parallel urls sched_parallel) lines
       ∧ Forall2 (λ url line,
           one_of_two_shapes (repr url) line
           ∧ match urlopen net_parallel url 60 with
             | Returned conn =>
                 line = repr url +:+ " page is "
                          +:+ pretty (length (read conn)) +:+ " bytes"
             | Raised exc =>
                 line = repr url +:+ " generated an exception: " +:+ str exc
             end) order lines)
  ∧ (∃ order lines, order ≡ₚ urls
       ∧ runs_to (Async.main net_async urls sched_async) lines
       ∧ Forall2 (λ url line,
           one_of_two_shapes url line
           ∧ match session_get net_async ClientSession_new url 60 with
             | Returned response =>
                 line = url +:+ " page is "
                          +:+ pretty (length (read response)) +:+ " bytes"
             | Raised exc => line = url +:+ " generated an exception: " +:+ str exc
             end) order lines)
  ∧ (∀ url, unrepr (repr url) = Some url).
Proof.
  assert (∀ (show : string → string) url fetched,
    one_of_two_shapes (show url) (line_of show (outcome_of url fetched))) as Hshape.
  { intros show url fetched.
    rewrite <- (target_outcome_of url fetched) at 1.
    apply line_one_of_two_shapes. }
  split; [|split; [|split]].
  - exists (serial_line net_serial <$> urls). split; [apply Serial_main_runs|].
    apply Forall2_fmap_r, Forall_Forall2_diag, Forall_forall.
    intros url _. simpl. split; [apply (Hshape id)|].
    unfold serial_line, serial_fetch.
    by destruct (requests_get net_serial url 60).
  - destruct (Parallel_main_runs net_parallel urls sched_parallel)
      as (order & Hperm & Hrun).
    exists order, (parallel_line net_parallel <$> order). repeat split; [done..|].
    apply Forall2_fmap_r, Forall_Forall2_diag, Forall_forall.
    intros url _. simpl. split; [apply (Hshape repr)|].
    unfold parallel_line, parallel_fetch, Parallel.load_url.
    by destruct (urlopen net_parallel url 60).
  - exists (completion_order sched_async urls),
      (async_line net_async <$> completion_order sched_async urls).
    split; [apply completion_order_perm|]. split; [apply Async_main_runs|].
    apply Forall2_fmap_r, Forall_Forall2_diag, Forall_forall.
    intros url _. simpl. split; [apply (Hshape id)|].
    unfold async_line, async_fetch.
    by destruct (session_get net_async ClientSession_new url 60).
  - apply unrepr_repr.
Qed.




(** C8. Each batch returns, for every network, list of targets and
    schedule, and when it returns the line of every target is on the
    console: [Serial.main] leaves its loop, the [with] block of [Parallel]
    ends and [await asyncio.gather] of [Async] resumes only after all the
    units have printed. The line of a target is the one its unit of work
    prints. *)
Theorem batch_returns_after_every_report (net : network) (urls : list string)
    (sched : list nat) :
  ∃ lines_serial lines_parallel lines_async : list string,
    runs_to (Serial.main net urls) lines_serial
    ∧ runs_to (Parallel.main net urls sched) lines_parallel
    ∧ runs_to (Async.main net urls sched) lines_async
    ∧ ∀ url, url ∈ urls →
        runs_to (Serial.load_url net url) [serial_line net url]
        ∧ serial_line net url ∈ lines_serial
        ∧ parallel_line net url
          = line_of repr (outcome_of url (Parallel.load_url net url 60))
        ∧ parallel_line net url ∈ lines_parallel
        ∧ runs_to (Async.load_url net ClientSession_new url) [async_line net url]
        ∧ async_line net url ∈ lines_async.
Proof.
  destruct (Parallel_main_runs net urls sched) as (order & Hperm & Hrun).
  exists (serial_line net <$> urls), (parallel_line net <$> order),
    (async_line net <$> completion_order sched urls).
  split; [apply Serial_main_runs|]. split; [done|].
  split; [apply Async_main_runs|].
  intros url Hin.
  split; [apply Serial_load_url_runs|].
  split; [by apply (elem_of_line _ _ urls urls)|].
  split; [done|].
  split; [by apply (elem_of_line _ _ _ urls)|].
  split; [apply Async_load_url_runs|].
  by apply (elem_of_line _ _ _ urls); [apply completion_order_perm|].
Qed.

Lemma same_fate_classification (net1 net2 : network) (url : string) :
  same_fate (net1 url 60) (net2 url 60) = true →
  classify url (serial_line net1 url) = classify url (serial_line net2 url)
  ∧ classify (repr url) (parallel_line net1 url)
    = classify (repr url) (parallel_line net2 url)
  ∧ classify url (async_line net1 url) = classify url (async_line net2 url).
Proof.
  rewrite !serial_line_cases, !parallel_line_cases, !async_line_cases.
  destruct (net1 url 60) as [status1 reason1 body1|why1 detail1],
    (net2 url 60) as [status2 reason2 body2|why2 detail2]; simpl; try done.
  - intros ->%bool_decide_eq_true.
    rewrite !classify_success_line.
    by case_bool_decide; rewrite ?classify_success_line, ?classify_failure_line.
  - intros _. by rewrite !classify_failure_line.
Qed.

(** C9. Two runs of the same batch against endpoints that behave alike
    (for each target both runs get a response with the same status, or
    both fail for the same cause; bodies and texts may differ) classify
    every target alike: the serial runs position by position, and the
    thread-pool and event-loop runs target by target, whatever the two
    schedules. *)
Theorem same_fates_same_classification (net1 net2 : network) (urls : list string)
    (sched1 sched2 : list nat) :
  Forall (λ url, same_fate (net1 url 60) (net2 url 60) = true) urls →
  (∃ lines1 lines2,
     runs_to (Serial.main net1 urls) lines1
     ∧ runs_to (Serial.main net2 urls) lines2
     ∧ zip_with classify urls lines1 = zip_with classify urls lines2)
  ∧ (∃ order1 order2, order1 ≡ₚ urls ∧ order2 ≡ₚ urls
       ∧ runs_to (Parallel.main net1 urls sched1) (parallel_line net1 <$> order1)
       ∧ runs_to (Parallel.main net2 urls sched2) (parallel_line net2 <$> order2)
       ∧ Forall (λ url, classify (repr url) (parallel_line net1 url)
                        = classify (repr url) (parallel_line net2 url)) urls)
  ∧ (∃ order1 order2, order1 ≡ₚ urls ∧ order2 ≡ₚ urls
       ∧ runs_to (Async.main net1 urls sched1) (async_line net1 <$> order1)
       ∧ runs_to (Async.main net2 urls sched2) (async_line net2 <$> order2)
       ∧ Forall (λ url, classify url (async_line net1 url)
                        = classify url (async_line net2 url)) urls).
Proof.
  intros Hsame. split; [|split].
  - exists (serial_line net1 <$> urls), (serial_line net2 <$> urls).
    split; [apply Serial_main_runs|]. split; [apply Serial_main_runs|].
    induction Hsame as [|url rest Hurl _ IH]; csimpl; [done|].
    f_equal; [|done]. by apply same_fate_classification.
  - destruct (Parallel_main_runs net1 urls sched1) as (order1 & Hperm1 & Hrun1).
    destruct (Parallel_main_runs net2 urls sched2) as (order2 & Hperm2 & Hrun2).
    exists order1, order2. repeat split; [done..|].
    eapply Forall_impl; [exact Hsame|].
    intros url Hurl. by apply same_fate_classification.
  - exists (completion_order sched1 urls), (completion_order sched2 urls).
    split; [apply completion_order_perm|]. split; [apply completion_order_perm|].
    split; [apply Async_main_runs|]. split; [apply Async_main_runs|].
    eapply Forall_impl; [exact Hsame|].
    intros url Hurl. by apply same_fate_classification.
Qed.

(** Two runs over the notebook's list whose pages differ in length. *)
Lemma same_fates_same_classification_witness :
  Forall (λ url, same_fate (notebook_net [Byte.x3c] url 60)
                   (notebook_net [Byte.x3c; Byte.x70] url 60) = true) Serial.URLS
  ∧ (∃ lines1 lines2,
       runs_to (Serial.main (notebook_net [Byte.x3c]) Serial.URLS) lines1
       ∧ runs_to (Serial.main (notebook_net [Byte.x3c; Byte.x70]) Serial.URLS) lines2
       ∧ zip_with classify Serial.URLS lines1 = zip_with classify Serial.URLS lines2)
  ∧ (∃ order1 order2, order1 ≡ₚ Serial.URLS ∧ order2 ≡ₚ Serial.URLS
       ∧ runs_to (Parallel.main (notebook_net [Byte.x3c]) Serial.URLS [4; 2]%nat)
           (parallel_line (notebook_net [Byte.x3c]) <$> order1)
       ∧ runs_to (Parallel.main (notebook_net [Byte.x3c; Byte.x70]) Serial.URLS [1]%nat)
           (parallel_line (notebook_net [Byte.x3c; Byte.x70]) <$> order2)
       ∧ Forall (λ url,
           classify (repr url) (parallel_line (notebook_net [Byte.x3c]) url)
           = classify (repr url) (parallel_line (notebook_net [Byte.x3c; Byte.x70]) url))
           Serial.URLS)
  ∧ (∃ order1 order2, order1 ≡ₚ Serial.URLS ∧ order2 ≡ₚ Serial.URLS
       ∧ runs_to (Async.main (notebook_net [Byte.x3c]) Serial.URLS [4; 2]%nat)
           (async_line (notebook_net [Byte.x3c]) <$> order1)
       ∧ runs_to (Async.main (notebook_net [Byte.x3c; Byte.x70]) Serial.URLS [1]%nat)
           (async_line (notebook_net [Byte.x3c; Byte.x70]) <$> order2)
       ∧ Forall (λ url,
           classify url (async_line (notebook_net [Byte.x3c]) url)
           = classify url (async_line (notebook_net [Byte.x3c; Byte.x70]) url))
           Serial.URLS).
Proof.
  split.
  - repeat constructor.
  - apply same_fates_same_classification. repeat constructor.
Defined.

(** C10. In the serial cell a response that arrives within the timeout
    with a status outside 2xx is reported as a success: [requests.get]
    returns it without raising, and the line printed for the target, on
    its own and within any batch, is the success line with the length of
    the response body, which is no failure line. *)
Theorem serial_reports_non_2xx_as_success (net : network) (url : string)
    (status : Z) (reason : string) (body : bytes) :
  net url 60 = Responded status reason body →
  ¬ (200 ≤ status < 300) →
  requests_get net url 60 = Returned {| status_code := status; content := body |}
  ∧ runs_to (Serial.load_url net url) [success_line url (len body)]
  ∧ classify url (success_line url (len body)) = Some true
  ∧ (∀ description, success_line url (len body) ≠ failure_line url description)
  ∧ (∀ urls, url ∈ urls →
       ∃ lines, runs_to (Serial.main net urls) lines
                ∧ success_line url (len body) ∈ lines).
Proof.
  intros Hnet _.
  pose proof (serial_line_cases net url) as Hs. rewrite Hnet in Hs.
  split; [unfold requests_get; by rewrite Hnet|].
  split; [rewrite <- Hs; apply Serial_load_url_runs|].
  split; [apply classify_success_line|].
  split; [intros description; apply success_line_ne_failure_line|].
  intros urls Hin. exists (serial_line net <$> urls).
  split; [apply Serial_main_runs|].
  rewrite <- Hs. by apply (elem_of_line _ _ urls urls).
Qed.

(** The host of the notebook's list that answers 403. *)
Lemma serial_reports_non_2xx_as_success_witness :
  notebook_net [Byte.x3c; Byte.x70] "http://europe.wsj.com/" 60
  = Responded 403 "Forbidden" [Byte.x3c; Byte.x70]
  ∧ ¬ (200 ≤ 403 < 300)
  ∧ requests_get (notebook_net [Byte.x3c; Byte.x70]) "http://europe.wsj.com/" 60
    = Returned {| status_code := 403; content := [Byte.x3c; Byte.x70] |}
  ∧ runs_to (Serial.load_url (notebook_net [Byte.x3c; Byte.x70]) "http://europe.wsj.com/")
      [success_line "http://europe.wsj.com/" (len [Byte.x3c; Byte.x70])]
  ∧ classify "http://europe.wsj.com/"
      (success_line "http://europe.wsj.com/" (len [Byte.x3c; Byte.x70]))
    = Some true
  ∧ (∀ description,
       success_line "http://europe.wsj.com/" (len [Byte.x3c; Byte.x70])
       ≠ failure_line "http://europe.wsj.com/" description)
  ∧ (∀ urls, "http://europe.wsj.com/" ∈ urls →
       ∃ lines,
         runs_to (Serial.main (notebook_net [Byte.x3c; Byte.x70]) urls) lines
         ∧ success_line "http://europe.wsj.com/" (len [Byte.x3c; Byte.x70]) ∈ lines).
Proof.
  split; [reflexivity|]. split; [lia|].
  apply (serial_reports_non_2xx_as_success _ _ 403 "Forbidden"); [reflexivity | lia].
Defined.

(** ** The notebook's list *)

(** With one unknown host and one host that answers 403, the three cells
    print five lines each; the 403 is a page for [Serial] and [Async] and
    an exception for [Parallel]. *)
Example Serial_main_notebook :
  Serial.main (notebook_net [Byte.x3c; Byte.x70]) Serial.URLS []
  = (Returned tt,
     [ "http://www.foxnews.com/ page is 2 bytes";
       "http://www.cnn.com/ page is 2 bytes";
       "http://europe.wsj.com/ page is 2 bytes";
       "http://www.bbc.co.uk/ page is 2 bytes";
       "http://nonexistent-subdomain.python.org/ generated an exception: [Errno 11001] getaddrinfo failed" ]).
Proof. reflexivity. Qed.

Example Parallel_main_notebook :
  Parallel.main (notebook_net [Byte.x3c; Byte.x70]) Parallel.URLS [0; 0; 0; 1; 0]%nat []
  = (Returned tt,
     [ "'http://nonexistent-subdomain.python.org/' generated an exception: <urlopen error [Errno 11001] getaddrinfo failed>";
       "'http://europe.wsj.com/' generated an exception: HTTP Error 403: Forbidden";
       "'http://www.bbc.co.uk/' page is 2 bytes";
       "'http://www.foxnews.com/' page is 2 bytes";
       "'http://www.cnn.com/' page is 2 bytes" ]).
Proof. vm_compute. reflexivity. Qed.

Example Async_main_notebook :
  Async.main (notebook_net [Byte.x3c; Byte.x70]) Async.URLS [4; 3; 0; 0; 0]%nat []
  = (Returned tt,
     [ "http://nonexistent-subdomain.python.org/ generated an exception: [Errno 11001] getaddrinfo failed";
       "http://www.bbc.co.uk/ page is 2 bytes";
       "http://www.foxnews.com/ page is 2 bytes";
       "http://www.cnn.com/ page is 2 bytes";
       "http://europe.wsj.com/ page is 2 bytes" ]).
Proof. reflexivity. Qed.

(** When no name resolves every line is a failure line, and the batches
    still return. *)
Example all_fail_still_returns :
  Serial.main (no_dns "getaddrinfo failed") ["http://a/"; "http://b/"] []
  = (Returned tt,
     [ "http://a/ generated an exception: getaddrinfo failed";
       "http://b/ generated an exception: getaddrinfo failed" ])
  ∧ Parallel.main (no_dns "getaddrinfo failed") ["http://a/"; "http://b/"] [1]%nat []
    = (Returned tt,
       [ "'http://a/' generated an exception: <urlopen error getaddrinfo failed>";
         "'http://b/' generated an exception: <urlopen error getaddrinfo failed>" ])
  ∧ Async.main (no_dns "getaddrinfo failed") ["http://a/"; "http://b/"] [1]%nat []
    = (Returned tt,
       [ "http://b/ generated an exception: getaddrinfo failed";
         "http://a/ generated an exception: getaddrinfo failed" ]).
Proof. repeat split; vm_compute; reflexivity. Qed.

(** [%r] shows a target with backslashes or both quotes escaped. *)
Example repr_escapes :
  repr "http://www.cnn.com/" = "'http://www.cnn.com/'"
  ∧ repr "a\b" = "'a\\b'"
  ∧ unrepr "'a\\b'" = Some "a\b".
Proof. repeat split. Qed.

(** * Further properties of the cells *)

(** ** The dictionary of futures *)

Lemma future_to_url_entries (net : network) (urls : list string) :
  map_to_list (Parallel.future_to_url_from net
                 {| Parallel.max_workers := 5; Parallel.submitted := 0 |} urls ∅)
  ≡ₚ imap (submitted_entry net) urls.
Proof.
  rewrite future_to_url_from_entries.
  - by rewrite map_to_list_empty, app_nil_r.
  - intros i [x Hx]. by rewrite lookup_empty in Hx.
Qed.

(** X1. The comprehension [{executor.submit(load_url, url, 60): url for url
    in URLS}] makes one entry per position of the list, also when a URL
    occurs twice: the dictionary has as many entries as the list, its keys
    are the submitted futures, the future of the [k]-th call holds what
    [load_url] did for the [k]-th URL and subscripting with it gives that
    URL back, and subscripting with a future that was never submitted
    raises [KeyError]. *)
Theorem future_to_url_one_entry_per_call (net : network) (urls : list string) :
  ∃ future_to_url : gmap nat (Parallel.Future * string),
    future_to_url
    = Parallel.future_to_url_from net
        {| Parallel.max_workers := 5; Parallel.submitted := 0 |} urls ∅
    ∧ size future_to_url = length urls
    ∧ Parallel.keys future_to_url
      ≡ₚ imap (λ k url, {| Parallel.ident := k;
                            Parallel.outcome := Parallel.load_url net url 60 |}) urls
    ∧ (∀ k url, urls !! k = Some url →
         Parallel.getitem future_to_url
           {| Parallel.ident := k; Parallel.outcome := Parallel.load_url net url 60 |}
         = Returned url)
    ∧ (∀ future, (length urls ≤ Parallel.ident future)%nat →
         Parallel.getitem future_to_url future
         = Raised (KeyError (Parallel.ident future))).
Proof.
  eexists. split; [reflexivity|].
  pose proof (future_to_url_entries net urls) as Hd.
  set (d := Parallel.future_to_url_from net _ urls ∅) in *.
  split; [|split; [|split]].
  - by rewrite <- length_map_to_list, Hd, length_imap.
  - unfold Parallel.keys. rewrite Hd. apply eq_perm.
    rewrite !fmap_imap. by apply imap_ext.
  - intros k url Hk. unfold Parallel.getitem. simpl.
    assert (submitted_entry net k url ∈ map_to_list d) as Hin.
    { rewrite Hd. apply list_elem_of_lookup. exists k.
      by rewrite list_lookup_imap, Hk. }
    apply elem_of_map_to_list in Hin. by rewrite Hin.
  - intros future Hge. unfold Parallel.getitem.
    destruct (d !! Parallel.ident future) as [entry|] eqn:Hlook; [|done].
    exfalso. apply elem_of_map_to_list in Hlook.
    rewrite Hd in Hlook. apply list_elem_of_lookup in Hlook as [j Hj].
    rewrite list_lookup_imap in Hj.
    destruct (urls !! j) as [u|] eqn:Hu; simpl in Hj; [|done].
    injection Hj as Hi _. apply lookup_lt_Some in Hu. lia.
Qed.

(** ** Order and content of the output *)

(** X2. The schedule decides the order of the lines and nothing else: two
    runs of the thread-pool cell, or of the event-loop cell, against the
    same network print the same lines up to order. *)
Theorem schedule_only_reorders (net : network) (urls : list string)
    (sched1 sched2 : list nat) :
  ∃ parallel1 parallel2 async1 async2 : list string,
    runs_to (Parallel.main net urls sched1) parallel1
    ∧ runs_to (Parallel.main net urls sched2) parallel2
    ∧ runs_to (Async.main net urls sched1) async1
    ∧ runs_to (Async.main net urls sched2) async2
    ∧ parallel1 ≡ₚ parallel2
    ∧ async1 ≡ₚ async2.
Proof.
  destruct (Parallel_main_runs net urls sched1) as (order1 & Hperm1 & Hrun1).
  destruct (Parallel_main_runs net urls sched2) as (order2 & Hperm2 & Hrun2).
  exists (parallel_line net <$> order1), (parallel_line net <$> order2),
    (async_line net <$> completion_order sched1 urls),
    (async_line net <$> completion_order sched2 urls).
  do 2 (split; [done|]).
  do 2 (split; [apply Async_main_runs|]).
  split; [by rewrite Hperm1, Hperm2|].
  by rewrite !completion_order_perm.
Qed.

(** X3. A batch over two lists joined prints what a batch over the first
    and a batch over the second print: in the serial cell exactly, the
    second batch starting on the console the first one leaves; in the
    thread-pool and event-loop cells up to order, whatever the three
    schedules. *)
Theorem batch_over_joined_lists (net : network) (urls1 urls2 : list string)
    (sched sched1 sched2 : list nat) :
  (∀ out, Serial.main net (urls1 ++ urls2) out
          = (Serial.main net urls1 ;; Serial.main net urls2) out)
  ∧ (∃ whole first second : list string,
       runs_to (Parallel.main net (urls1 ++ urls2) sched) whole
       ∧ runs_to (Parallel.main net urls1 sched1) first
       ∧ runs_to (Parallel.main net urls2 sched2) second
       ∧ whole ≡ₚ first ++ second)
  ∧ (∃ whole first second : list string,
       runs_to (Async.main net (urls1 ++ urls2) sched) whole
       ∧ runs_to (Async.main net urls1 sched1) first
       ∧ runs_to (Async.main net urls2 sched2) second
       ∧ whole ≡ₚ first ++ second).
Proof.
  split; [|split].
  - intros out. unfold mbind, IO_bind.
    rewrite (Serial_main_runs net (urls1 ++ urls2)), (Serial_main_runs net urls1).
    rewrite (Serial_main_runs net urls2).
    by rewrite fmap_app, app_assoc.
  - destruct (Parallel_main_runs net (urls1 ++ urls2) sched) as (order & Hperm & Hrun).
    destruct (Parallel_main_runs net urls1 sched1) as (order1 & Hperm1 & Hrun1).
    destruct (Parallel_main_runs net urls2 sched2) as (order2 & Hperm2 & Hrun2).
    exists (parallel_line net <$> order), (parallel_line net <$> order1),
      (parallel_line net <$> order2).
    do 3 (split; [done|]).
    by rewrite <- fmap_app, Hperm, Hperm1, Hperm2.
  - exists (async_line net <$> completion_order sched (urls1 ++ urls2)),
      (async_line net <$> completion_order sched1 urls1),
      (async_line net <$> completion_order sched2 urls2).
    do 3 (split; [apply Async_main_runs|]).
    by rewrite <- fmap_app, !completion_order_perm.
Qed.

(** X4. A URL listed [n] times is fetched and reported [n] times by every
    cell, under every schedule: the thread-pool cell keys its dictionary by
    future, not by URL, so repeated URLs are not merged. *)
Theorem repeated_url_reported_each_time (net : network) (url : string) (n : nat)
    (sched : list nat) :
  runs_to (Serial.main net (replicate n url)) (replicate n (serial_line net url))
  ∧ runs_to (Parallel.main net (replicate n url) sched)
      (replicate n (parallel_line net url))
  ∧ runs_to (Async.main net (replicate n url) sched)
      (replicate n (async_line net url)).
Proof.
  split; [|split].
  - rewrite <- fmap_replicate. apply Serial_main_runs.
  - destruct (Parallel_main_runs net (replicate n url) sched) as (order & Hperm & Hrun).
    symmetry in Hperm. apply replicate_Permutation in Hperm. subst order.
    by rewrite fmap_replicate in Hrun.
  - pose proof (Async_main_runs net (replicate n url) sched) as Hrun.
    pose proof (completion_order_perm sched (replicate n url)) as Hperm.
    symmetry in Hperm. apply replicate_Permutation in Hperm.
    by rewrite <- Hperm, fmap_replicate in Hrun.
Qed.

(** X5. With an empty list every cell returns at once and prints nothing,
    whatever the network and the schedule. *)
Theorem empty_list_prints_nothing (net : network) (sched : list nat)
    (out : list string) :
  Serial.main net [] out = (Returned tt, out)
  ∧ Parallel.main net [] sched out = (Returned tt, out)
  ∧ Async.main net [] sched out = (Returned tt, out).
Proof.
  split; [done|]. split; [|done].
  destruct (Parallel_main_runs net [] sched) as (order & Hperm & Hrun).
  apply Permutation_nil_r in Hperm. subst order.
  by rewrite Hrun, app_nil_r.
Qed.
